(** * smart-reader: the vector-db service

    A shallow embedding of [services/vector-db]: the [VectorService] class
    of [services/vector_service.py] (a per-user front end to a chromadb
    client), [EmbeddingService.get_embedding_dimension] of
    [services/embedding_service.py], and the [DocumentEmbedding] model of
    [models/document_embedding.py] (records kept in a MongoDB collection).

    Python floats are IEEE-754 binary64 numbers, modelled by Rocq's
    primitive floats; dicts are stdpp finite maps; a method that can raise
    returns a [Result]; methods of [VectorService] thread the service
    object (chromadb client, handle cache, uuid draws) explicitly. *)

From Stdlib Require Import ZArith Floats.
From stdpp Require Import base option list sorting gmap strings pretty.

Local Open Scope string_scope.

(** ** Python exceptions and results *)

Module Py.

(** The exceptions that reach this code.  [ValueError] is Python's
    builtin, raised by the service itself, by numpy and by pymongo;
    [TypeError] is what chromadb raises for a number of results below 1;
    the others come from chromadb as well. *)
Inductive Exc : Type :=
| ValueError (msg : string)
| TypeError (msg : string)
| IndexError
| InvalidDimensionException (got expected : nat)
| ChromaError (msg : string).

Inductive Result (A : Type) : Type :=
| Ok (a : A)
| Raise (e : Exc).
Arguments Ok {A} a.
Arguments Raise {A} e.

Definition bind {A B} (r : Result A) (k : A → Result B) : Result B :=
  match r with
  | Ok a => k a
  | Raise e => Raise e
  end.

Definition map {A B} (f : A → B) (r : Result A) : Result B :=
  bind r (λ a, Ok (f a)).

End Py.
Export Py.

(** ** numpy on one-dimensional float64 arrays *)

Module Numpy.

Definition shapes_not_aligned : string := "shapes not aligned".

(** [np.dot(a, b)] for 1-D arrays: the sum of the pairwise products,
    accumulated from the left starting at [0.0]. *)
Fixpoint dot_from (acc : float) (a b : list float) : float :=
  match a, b with
  | x :: a', y :: b' => dot_from (acc + x * y)%float a' b'
  | _, _ => acc
  end.

(** numpy refuses operands of different lengths with a [ValueError]. *)
Definition dot (a b : list float) : Result float :=
  if decide (length a = length b) then Ok (dot_from 0%float a b)
  else Raise (ValueError shapes_not_aligned).

(** [np.linalg.norm(a)], the 2-norm: the square root of [a . a]. *)
Definition norm (a : list float) : float :=
  PrimFloat.sqrt (dot_from 0%float a a).

End Numpy.

(** ** chromadb: the persistent client and its collections

    chromadb is an external dependency; this is a model of the part of
    its API the service calls, following its documented behaviour.  A
    collection keeps its entries in insertion order.  Nearest-neighbour
    search and the validation of collection names are left to a
    [Backend], since chromadb's index is approximate and its naming rules
    vary with the version. *)

Module Chroma.

(** Metadata values: the service writes strings ([document_id],
    [user_id]) and integers ([text_length]). *)
Inductive MetaValue : Type :=
| MStr (s : string)
| MInt (z : Z).

#[global] Instance MetaValue_eq_dec : EqDecision MetaValue.
Proof. solve_decision. Defined.

#[global] Instance MetaValue_countable : Countable MetaValue.
Proof.
  refine (inj_countable'
    (λ v, match v with MStr s => inl s | MInt z => inr z end)
    (λ x, match x with inl s => MStr s | inr z => MInt z end) _).
  by intros [].
Defined.

Abbreviation Metadata := (gmap string MetaValue).

Record Entry : Type := {
  entry_id : string;
  entry_embedding : list float;
  entry_document : string;
  entry_metadata : Metadata
}.

Record Collection : Type := {
  col_name : string;
  col_metadata : Metadata;
  col_dimension : option nat;
  col_records : list Entry
}.

(** The client's persistent store, by collection name.  A collection
    handle held by Python code designates its collection by name. *)
Abbreviation Client := (gmap string Collection).
Abbreviation Handle := string.

(** What [collection.get] returns with [include=['metadatas']]. *)
Record GetResult : Type := {
  get_ids : list string;
  get_metadatas : list Metadata
}.

(** What [collection.query] returns for a single query embedding with
    [include=['documents', 'metadatas', 'distances']]: the row [[0]] of
    each of the four parallel lists. *)
Record QueryResult : Type := {
  qr_ids : list string;
  qr_documents : list string;
  qr_metadatas : list Metadata;
  qr_distances : list float
}.

Class Backend : Type := {
  valid_name : string → bool;
  knn : list Entry → list float → Z → Result QueryResult
}.

Definition get_collection (cl : Client) (name : string) : Result Handle :=
  match cl !! name with
  | Some _ => Ok name
  | None => Raise (ValueError ("Collection " ++ name ++ " does not exist."))
  end.

Definition create_collection `{Backend} (cl : Client) (name : string)
    (metadata : Metadata) : Result (Handle * Client) :=
  if negb (valid_name name) then Raise (ValueError "invalid collection name")
  else match cl !! name with
       | Some _ => Raise (ChromaError ("Collection " ++ name ++ " already exists"))
       | None =>
           Ok (name, <[name := {| col_name := name; col_metadata := metadata;
                                  col_dimension := None; col_records := [] |}]> cl)
       end.

Definition delete_collection (cl : Client) (name : string) : Result Client :=
  match cl !! name with
  | Some _ => Ok (delete name cl)
  | None => Raise (ValueError ("Collection " ++ name ++ " does not exist."))
  end.

Definition ids_of (c : Collection) : list string :=
  entry_id <$> col_records c.

(** [collection.add] of one entry.  The first embedding added fixes the
    collection's dimensionality; a later one of another length is
    refused.  An empty embedding is refused; an id that is already
    present is skipped (never overwritten). *)
Definition add (c : Collection) (id : string) (embedding : list float)
    (document : string) (metadata : Metadata) : Result Collection :=
  match embedding with
  | [] => Raise (ValueError "Expected each embedding to be a non-empty list")
  | _ :: _ =>
      let n := length embedding in
      if decide (default n (col_dimension c) = n) then
        if decide (id ∈ ids_of c) then Ok c
        else Ok {| col_name := col_name c; col_metadata := col_metadata c;
                   col_dimension := Some n;
                   col_records := col_records c ++
                     [{| entry_id := id; entry_embedding := embedding;
                         entry_document := document;
                         entry_metadata := metadata |}] |}
      else Raise (InvalidDimensionException n (default n (col_dimension c)))
  end.

Definition result_of (es : list Entry) : GetResult :=
  {| get_ids := entry_id <$> es; get_metadatas := entry_metadata <$> es |}.

(** [collection.get(where={key: value}, include=['metadatas'])] *)
Definition get_where (c : Collection) (key : string) (value : MetaValue)
  : GetResult :=
  result_of (filter (λ e, entry_metadata e !! key = Some value) (col_records c)).

(** [collection.get(limit=n, include=['metadatas'])] *)
Definition get_limit (c : Collection) (n : nat) : GetResult :=
  result_of (take n (col_records c)).

(** [collection.delete(ids=ids)] *)
Definition delete_ids (c : Collection) (ids : list string) : Collection :=
  {| col_name := col_name c; col_metadata := col_metadata c;
     col_dimension := col_dimension c;
     col_records := filter (λ e, entry_id e ∉ ids) (col_records c) |}.

Definition count (c : Collection) : nat := length (col_records c).

Definition query `{Backend} (c : Collection) (query_embedding : list float)
    (n_results : Z) : Result QueryResult :=
  knn (col_records c) query_embedding n_results.

End Chroma.
Import Chroma.

(** ** [services/vector_service.py]: class [VectorService] *)

Module VectorService.

(** [uuid.uuid4()] draws from the operating system's random source; the
    [n]-th draw of the process is [uuid4 n]. *)
Class UuidSource : Type := { uuid4 : nat → string }.

(** The service object. *)
Record t : Type := {
  client : Client;                      (* self.client *)
  collections : gmap string Handle;     (* self.collections *)
  uuid_draws : nat                      (* uuid4 draws made so far *)
}.

(** [__init__] opens the persistent client on what its directory holds,
    with an empty cache. *)
Definition init (persisted : Client) : t :=
  {| client := persisted; collections := ∅; uuid_draws := 0 |}.

(** A method either returns or raises, and leaves the service object in
    a new state either way.  The [try: ... except Exception as e: ...
    raise e] around every method body only logs, and is left out. *)
Definition M (A : Type) : Type := t → Result A * t.

Definition ret {A} (a : A) : M A := λ self, (Ok a, self).

Definition lift {A} (r : Result A) : M A := λ self, (r, self).

Definition bindM {A B} (m : M A) (k : A → M B) : M B :=
  λ self, match m self with
          | (Ok a, self') => k a self'
          | (Raise e, self') => (Raise e, self')
          end.

Notation "'let*' x := m 'in' k" := (bindM m (λ x, k))
  (at level 10, x binder, m at level 200, k at level 200).

(** What a method without a [return] statement returns, next to the
    integer it could have returned. *)
Inductive PyVal : Type :=
| PyNone
| PyInt (n : Z).

Definition set_client (cl : Client) (self : t) : t :=
  {| client := cl; collections := collections self;
     uuid_draws := uuid_draws self |}.

Definition set_collections (cache : gmap string Handle) (self : t) : t :=
  {| client := client self; collections := cache;
     uuid_draws := uuid_draws self |}.

Definition drawn (self : t) : t :=
  {| client := client self; collections := collections self;
     uuid_draws := S (uuid_draws self) |}.

Definition uuid_uuid4 `{UuidSource} : M string :=
  λ self, (Ok (uuid4 (uuid_draws self)), drawn self).

(** Calls through a collection handle: the handle is looked up in the
    client's store at each call. *)
Definition stale_handle : Exc := ChromaError "Collection does not exist".

Definition collection_add (collection : Handle) (id : string)
    (embedding : list float) (document : string) (metadata : Metadata)
  : M unit :=
  λ self, match client self !! collection with
          | None => (Raise stale_handle, self)
          | Some c =>
              match Chroma.add c id embedding document metadata with
              | Ok c' =>
                  (Ok (), set_client (<[collection := c']> (client self)) self)
              | Raise e => (Raise e, self)
              end
          end.

Definition collection_read {A} (collection : Handle)
    (f : Collection → Result A) : M A :=
  λ self, match client self !! collection with
          | None => (Raise stale_handle, self)
          | Some c => (f c, self)
          end.

Definition collection_delete (collection : Handle) (ids : list string)
  : M unit :=
  λ self, match client self !! collection with
          | None => (Raise stale_handle, self)
          | Some c =>
              (Ok (), set_client
                        (<[collection := Chroma.delete_ids c ids]> (client self))
                        self)
          end.

(** One hit of [search_similar]: the dict it appends. *)
Record Hit : Type := {
  hit_id : string;
  hit_document : string;
  hit_metadata : Metadata;
  hit_similarity : float;
  hit_distance : float
}.

(** The loop of [search_similar] over
    [enumerate(zip(documents, metadatas, distances))], from index [i]. *)
Fixpoint format_results (ids : list string) (threshold : float) (i : nat)
    (rows : list (string * Metadata * float)) : Result (list Hit) :=
  match rows with
  | [] => Ok []
  | (doc, metadata, distance) :: rows' =>
      let similarity := (1 - distance)%float in
      if (threshold <=? similarity)%float then
        match ids !! i with
        | None => Raise IndexError
        | Some id =>
            Py.map (cons {| hit_id := id; hit_document := doc;
                            hit_metadata := metadata;
                            hit_similarity := similarity;
                            hit_distance := distance |})
                   (format_results ids threshold (S i) rows')
        end
      else format_results ids threshold (S i) rows'
  end.

Definition rows_of (results : QueryResult)
  : list (string * Metadata * float) :=
  zip (zip (qr_documents results) (qr_metadatas results))
      (qr_distances results).

(** The dict built by the loop of [get_collection_stats]. *)
Definition count_documents (metadatas : list Metadata) : gmap MetaValue nat :=
  foldl (λ document_counts metadata,
           let doc_id := default (MStr "unknown") (metadata !! "document_id") in
           <[doc_id := default 0 (document_counts !! doc_id) + 1]>
             document_counts)
        ∅ metadatas.

(** The dict [embedding_metadata] of [store_embedding]: the caller's
    entries come last and win. *)
Definition embedding_metadata (text document_id user_id : string)
    (metadata : option Metadata) : Metadata :=
  default ∅ metadata ∪
  {[ "document_id" := MStr document_id;
     "user_id" := MStr user_id;
     "text_length" := MInt (Z.of_nat (String.length text)) ]}.

Record Stats : Type := {
  total_embeddings : nat;
  unique_documents : nat;
  document_distribution : gmap MetaValue nat;
  collection_name : string
}.

Definition calculate_similarity (embedding1 embedding2 : list float)
  : Result float :=
  let vec1 := embedding1 in
  let vec2 := embedding2 in
  Py.bind (Numpy.dot vec1 vec2) (λ dot_product,
    let norm1 := Numpy.norm vec1 in
    let norm2 := Numpy.norm vec2 in
    if (norm1 =? 0)%float || (norm2 =? 0)%float then Ok 0%float
    else
      let similarity := (dot_product / (norm1 * norm2))%float in
      Ok similarity).

Section Methods.
Context `{Backend} `{UuidSource}.

Definition _get_collection (user_id : string) : M Handle :=
  λ self,
    let collection_name := "user_" ++ user_id in
    match collections self !! collection_name with
    | Some h => (Ok h, self)
    | None =>
        match Chroma.get_collection (client self) collection_name with
        | Ok h =>
            (Ok h,
             set_collections (<[collection_name := h]> (collections self)) self)
        | Raise _ =>
            match Chroma.create_collection (client self) collection_name
                    {[ "user_id" := MStr user_id ]} with
            | Ok (h, cl) =>
                (Ok h,
                 set_collections (<[collection_name := h]> (collections self))
                   (set_client cl self))
            | Raise e => (Raise e, self)
            end
        end
    end.

Definition store_embedding (text : string) (embedding : list float)
    (document_id user_id : string) (metadata : option Metadata) : M string :=
  let* collection := _get_collection user_id in
  let* vector_id := uuid_uuid4 in
  let embedding_metadata :=
    embedding_metadata text document_id user_id metadata in
  let* _ := collection_add collection vector_id embedding text
              embedding_metadata in
  ret vector_id.

Definition search_similar (query_embedding : list float) (user_id : string)
    (limit : Z) (threshold : float) : M (list Hit) :=
  let* collection := _get_collection user_id in
  let* results := collection_read collection
                    (λ c, Chroma.query c query_embedding limit) in
  lift (format_results (qr_ids results) threshold 0 (rows_of results)).

Definition delete_document_embeddings (document_id user_id : string)
  : M PyVal :=
  let* collection := _get_collection user_id in
  let* results := collection_read collection
                    (λ c, Ok (Chroma.get_where c "document_id"
                                (MStr document_id))) in
  let* _ := match get_ids results with
            | [] => ret ()
            | _ :: _ => collection_delete collection (get_ids results)
            end in
  ret PyNone.

Definition delete_collection (collection_name user_id : string) : M PyVal :=
  λ self,
    if negb (String.prefix ("user_" ++ user_id) collection_name) then
      (Raise (ValueError "Collection does not belong to user"), self)
    else
      match Chroma.delete_collection (client self) collection_name with
      | Raise e => (Raise e, self)
      | Ok cl =>
          (Ok PyNone,
           match collections self !! collection_name with
           | Some _ =>
               set_collections (delete collection_name (collections self))
                 (set_client cl self)
           | None => set_client cl self
           end)
      end.

Definition get_collection_stats (user_id : string) : M Stats :=
  let* collection := _get_collection user_id in
  let* count := collection_read collection (λ c, Ok (Chroma.count c)) in
  let* sample := collection_read collection
                   (λ c, Ok (Chroma.get_limit c 100)) in
  let document_counts := count_documents (get_metadatas sample) in
  ret {| total_embeddings := count;
         unique_documents := size document_counts;
         document_distribution := document_counts;
         collection_name := "user_" ++ user_id |}.

(** The calls that act on the service object, and the states they lead
    to from a service started on an empty directory. *)
Inductive Call : Type :=
| StoreEmbedding (text : string) (embedding : list float)
    (document_id user_id : string) (metadata : option Metadata)
| SearchSimilar (query_embedding : list float) (user_id : string)
    (limit : Z) (threshold : float)
| DeleteDocumentEmbeddings (document_id user_id : string)
| DeleteCollection (collection_name user_id : string)
| GetCollectionStats (user_id : string).

Definition after (call : Call) (self : t) : t :=
  match call with
  | StoreEmbedding text embedding document_id user_id metadata =>
      (store_embedding text embedding document_id user_id metadata self).2
  | SearchSimilar query_embedding user_id limit threshold =>
      (search_similar query_embedding user_id limit threshold self).2
  | DeleteDocumentEmbeddings document_id user_id =>
      (delete_document_embeddings document_id user_id self).2
  | DeleteCollection collection_name user_id =>
      (delete_collection collection_name user_id self).2
  | GetCollectionStats user_id =>
      (get_collection_stats user_id self).2
  end.


End Methods.

End VectorService.

(** ** [services/embedding_service.py]: [get_embedding_dimension] *)

Module EmbeddingService.

(** [self.local_models], each model by the dimension its
    [get_sentence_embedding_dimension()] reports. *)
Definition local_models : gmap string nat :=
  {[ "all-MiniLM-L6-v2" := 384; "all-mpnet-base-v2" := 768 ]}.

Definition get_embedding_dimension (model : string) : nat :=
  if String.prefix "text-embedding" model then
    if decide (model = "text-embedding-ada-002") then 1536
    else if decide (model = "text-embedding-3-small") then 1536
    else if decide (model = "text-embedding-3-large") then 3072
    else 1536
  else match local_models !! model with
       | Some dimension => dimension
       | None => 1536
       end.

End EmbeddingService.

(** ** pymongo: cursors over a collection

    A MongoDB collection is modelled by the list of its documents in
    insertion order; the connection is assumed to be up. *)

Module Mongo.

Section Cursor.
Context {A : Type}.

Definition find (P : A → Prop) `{!∀ x, Decision (P x)} (coll : list A)
  : list A := filter P coll.

Definition count_documents (P : A → Prop) `{!∀ x, Decision (P x)}
    (coll : list A) : nat := length (filter P coll).

Definition ascending (key : A → Z) : relation A :=
  λ x y, (key x ≤ key y)%Z.

Definition descending (key : A → Z) : relation A :=
  λ x y, (key y ≤ key x)%Z.

#[global] Instance ascending_dec key x y : Decision (ascending key x y).
Proof. unfold ascending. apply _. Defined.

#[global] Instance descending_dec key x y : Decision (descending key x y).
Proof. unfold descending. apply _. Defined.

(** [cursor.sort(key, direction)]: ascending for [1], descending for
    [-1]. *)
Definition sort (key : A → Z) (direction : Z) (cur : list A) : list A :=
  if (0 <? direction)%Z then merge_sort (ascending key) cur
  else merge_sort (descending key) cur.

(** [cursor.skip(n)] raises [ValueError] for a negative [n]. *)
Definition skip (n : Z) (cur : list A) : Result (list A) :=
  if (n <? 0)%Z then Raise (ValueError "skip must be >= 0")
  else Ok (drop (Z.to_nat n) cur).

(** [cursor.limit(n)]: [0] means no limit, and a negative [n] asks for
    [|n|] documents. *)
Definition limit (n : Z) (cur : list A) : list A :=
  if (n =? 0)%Z then cur else take (Z.abs_nat n) cur.

(** [collection.delete_many(filter)]: the count deleted and what is
    left. *)
Definition delete_many (P : A → Prop) `{!∀ x, Decision (P x)}
    (coll : list A) : nat * list A :=
  (length (filter P coll), filter (λ x, ¬ P x) coll).




End Cursor.

End Mongo.

(** ** [models/document_embedding.py]: class [DocumentEmbedding] *)

Module DocumentEmbedding.

(** A record as [save] writes it; datetimes are microseconds since the
    epoch. *)
Record t : Type := {
  id : string;
  document_id : string;
  user_id : string;
  text : string;
  embedding : list float;
  model : string;
  metadata : Metadata;
  created_at : Z;
  updated_at : Z
}.

(** The collection [db['document_embeddings']]. *)
Abbreviation Database := (list t).

(** [get_by_user]: the objects rebuilt from the cursor carry exactly the
    fields of the stored records.  Any exception is swallowed and turned
    into [([], 0)]. *)
Definition get_by_user (db : Database) (user_id' : string) (page limit : Z)
  : list t * nat :=
  let skip := ((page - 1) * limit)%Z in
  let total := Mongo.count_documents (λ d, user_id d = user_id') db in
  match Mongo.skip skip
          (Mongo.sort created_at (-1)
             (Mongo.find (λ d, user_id d = user_id') db)) with
  | Ok cursor => (Mongo.limit limit cursor, total)
  | Raise _ => ([], 0)
  end.

(** [delete_by_document]: prints the deleted count and returns nothing. *)
Definition delete_by_document (db : Database) (document_id' user_id' : string)
  : Result VectorService.PyVal * Database :=
  let result := Mongo.delete_many
                  (λ d, document_id d = document_id' ∧ user_id d = user_id') db in
  (Ok VectorService.PyNone, result.2).





End DocumentEmbedding.

(** ** [app.py]: the routes *)

Module App.


End App.

(** ** A reference backend

    An exact index: squared Euclidean distance (chromadb's default
    space) to every stored embedding, nearest first, entries at the same
    distance in insertion order; every name is accepted, and a number
    of results below 1 refused, as chromadb's validation does. *)

Module Exact.

Fixpoint squared_l2_from (acc : float) (a b : list float) : float :=
  match a, b with
  | x :: a', y :: b' => squared_l2_from (acc + (x - y) * (x - y))%float a' b'
  | _, _ => acc
  end.

Definition squared_l2 (a b : list float) : float := squared_l2_from 0%float a b.

Fixpoint insert_nearest (x : float * Entry) (l : list (float * Entry))
  : list (float * Entry) :=
  match l with
  | [] => [x]
  | y :: l' =>
      if (x.1 <? y.1)%float then x :: l else y :: insert_nearest x l'
  end.

Definition nearest_first (l : list (float * Entry)) : list (float * Entry) :=
  foldl (λ sorted x, insert_nearest x sorted) [] l.

Definition knn (records : list Entry) (q : list float) (n_results : Z)
  : Result QueryResult :=
  if (n_results <=? 0)%Z then
    Raise (TypeError "Number of requested results cannot be negative, or zero")
  else
    match filter (λ e, length (entry_embedding e) ≠ length q) records with
    | e :: _ =>
        Raise (InvalidDimensionException (length q)
                 (length (entry_embedding e)))
    | [] =>
        let scored := (λ e, (squared_l2 q (entry_embedding e), e)) <$> records in
        let top := take (Z.to_nat n_results) (nearest_first scored) in
        Ok {| qr_ids := (λ x, entry_id x.2) <$> top;
              qr_documents := (λ x, entry_document x.2) <$> top;
              qr_metadatas := (λ x, entry_metadata x.2) <$> top;
              qr_distances := fst <$> top |}
    end.

#[global] Instance backend : Backend :=
  {| valid_name := λ _, true; Chroma.knn := knn |}.

(** A uuid source without collisions. *)
#[global] Instance uuids : VectorService.UuidSource :=
  {| VectorService.uuid4 := λ n, "uuid-" ++ pretty n |}.

End Exact.

(** ** Concrete service states *)

Module Scenario.

Import VectorService.

(** The service right after [__init__], on an empty persist directory. *)
Definition fresh : VectorService.t := init ∅.

Definition collection_of (self : VectorService.t) (name : string)
  : Collection :=
  default {| col_name := name; col_metadata := ∅; col_dimension := None;
             col_records := [] |}
          (client self !! name).

(** Users ["1"] and ["12"] have each stored one embedding. *)
Definition two_users : VectorService.t :=
  after (StoreEmbedding "beta" [0%float; 1%float] "doc-2" "12" None)
    (after (StoreEmbedding "alpha" [1%float; 0%float] "doc-1" "1" None)
       fresh).

(** User ["u"] has stored two embeddings, the first slightly farther
    from the origin than the second. *)
Definition near_duplicates : VectorService.t :=
  after (StoreEmbedding "second" [0x1p-33%float] "doc-b" "u" None)
    (after (StoreEmbedding "first" [0x1p-32%float] "doc-a" "u" None)
       fresh).

(** User ["u"] holds [n] embeddings, each of a document of its own. *)
Definition entry_of (n : nat) : Entry :=
  {| entry_id := "id-" ++ pretty n;
     entry_embedding := [1%float];
     entry_document := "text";
     entry_metadata := {[ "document_id" := MStr ("doc-" ++ pretty n) ]} |}.

Definition one_document_each (n : nat) : VectorService.t :=
  {| client := {[ "user_u" := {| col_name := "user_u";
                                 col_metadata := {[ "user_id" := MStr "u" ]};
                                 col_dimension := Some 1;
                                 col_records := entry_of <$> seq 0 n |} ]};
     collections := ∅;
     uuid_draws := 0 |}.

(** Records of the ['document_embeddings'] collection. *)
Definition record (i : string) (doc user : string) (created updated : Z)
  : DocumentEmbedding.t :=
  {| DocumentEmbedding.id := i;
     DocumentEmbedding.document_id := doc;
     DocumentEmbedding.user_id := user;
     DocumentEmbedding.text := "text";
     DocumentEmbedding.embedding := [1%float];
     DocumentEmbedding.model := "text-embedding-ada-002";
     DocumentEmbedding.metadata := ∅;
     DocumentEmbedding.created_at := created;
     DocumentEmbedding.updated_at := updated |}.

(** Two records of one user, built by two requests served at the same
    time: ["a"] read the clock for [created_at] first and for
    [updated_at] last. *)
Definition interleaved : DocumentEmbedding.Database :=
  [ record "a" "doc-a" "u" 1 4; record "b" "doc-b" "u" 2 3 ].

(** Fifteen records of user ["u"], and one of somebody else. *)
Definition fifteen : DocumentEmbedding.Database :=
  record "x" "doc-x" "v" 0 0
  :: ((λ n, record (pretty n) "doc" "u" (Z.of_nat n) (Z.of_nat n)) <$> seq 0 15).

End Scenario.

Import VectorService.

(** ** What the statements below ask of the index and of its answers *)

(** An answer of [collection.query] carries four parallel lists of at
    most [n_results] items. *)
Definition well_formed (B : Backend) : Prop :=
  ∀ records q n_results r,
    knn records q n_results = Ok r →
    length (qr_ids r) = length (qr_distances r)
    ∧ length (qr_documents r) = length (qr_distances r)
    ∧ length (qr_metadatas r) = length (qr_distances r)
    ∧ (Z.of_nat (length (qr_distances r)) ≤ n_results)%Z.

(** The answer lists the nearest entry first. *)
Definition nearest_first (r : QueryResult) : Prop :=
  StronglySorted (λ d1 d2, (d1 <=? d2)%float = true) (qr_distances r).

(** Subtracting from [1.0] reverses the order of the given distances, as
    rounding to nearest does for all floats that are not NaN. *)
Definition sub_antitone_on (ds : list float) : Prop :=
  ∀ d1 d2, d1 ∈ ds → d2 ∈ ds →
    (d1 <=? d2)%float = true → (1 - d2 <=? 1 - d1)%float = true.

(** A vector all of whose components are [0.0] or [-0.0]. *)
Definition zero_vector (a : list float) : Prop :=
  Forall (λ x, x = 0%float ∨ x = (-0)%float) a.

(** The index answers a query for at least one neighbour, with a
    non-empty vector of the length of the stored ones. *)
Definition answers (B : Backend) : Prop :=
  ∀ records q n_results,
    (1 ≤ n_results)%Z → q ≠ [] →
    Forall (λ e, length (entry_embedding e) = length q) records →
    ∃ r, knn records q n_results = Ok r.

Definition clears (threshold : float) (hit : Hit) : Prop :=
  (threshold <=? hit_similarity hit)%float = true.

#[global] Instance clears_dec threshold hit : Decision (clears threshold hit).
Proof. unfold clears. apply _. Defined.

(** The rows of the index's answer, in its order, each as the hit it
    stands for: the id, document, metadata and distance at one position,
    and the similarity that goes with the distance. *)
Definition hit_of (x : string * (string * Metadata * float)) : Hit :=
  {| hit_id := x.1; hit_document := x.2.1.1; hit_metadata := x.2.1.2;
     hit_similarity := (1 - x.2.2)%float; hit_distance := x.2.2 |}.

Definition answer_hits (r : QueryResult) : list Hit :=
  hit_of <$> zip (qr_ids r) (rows_of r).

(** The entries a handle designates. *)
Definition entries (self : VectorService.t) (h : Handle) : list Entry :=
  default [] (col_records <$> client self !! h).

(** Every id in the store was drawn from the uuid source earlier on. *)
Definition issued `{UuidSource} (self : VectorService.t) : Prop :=
  ∀ name c e,
    client self !! name = Some c → e ∈ col_records c →
    ∃ n, (n < uuid_draws self)%nat ∧ entry_id e = uuid4 n.

(** The cache names collections of the store, each under its own name. *)
Definition coherent (self : VectorService.t) : Prop :=
  ∀ name h,
    collections self !! name = Some h →
    h = name ∧ is_Some (client self !! name).

(** Every collection of [self] is still there in [self'], with the
    entries it had, in place, at the front. *)
Definition kept (self self' : VectorService.t) : Prop :=
  ∀ name c,
    client self !! name = Some c →
    ∃ c', client self' !! name = Some c'
          ∧ col_records c `prefix_of` col_records c'.


(** No draw is undone, and every collection of [self'] is empty or holds
    some of the entries it held in [self], in their order. *)
Definition shrunk (self self' : VectorService.t) : Prop :=
  (uuid_draws self ≤ uuid_draws self')%nat
  ∧ ∀ name c',
      client self' !! name = Some c' →
      col_records c' = []
      ∨ ∃ c, client self !! name = Some c
             ∧ col_records c' `sublist_of` col_records c.

(** All runs of a method relate the state before to the state after. *)
Definition relates {A} (R : relation VectorService.t) (m : M A) : Prop :=
  ∀ self r self', m self = (r, self') → R self self'.

(** The entry [store_embedding] hands to [collection.add]. *)
Definition new_entry (id text : string) (embedding : list float)
    (document_id user_id : string) (metadata : option Metadata) : Entry :=
  {| entry_id := id; entry_embedding := embedding; entry_document := text;
     entry_metadata := embedding_metadata text document_id user_id metadata |}.

(** The entry's metadata names the document. *)
Definition about (document_id : string) (e : Entry) : Prop :=
  entry_metadata e !! "document_id" = Some (MStr document_id).

#[global] Instance about_dec document_id e : Decision (about document_id e).
Proof. unfold about. apply _. Defined.

(** The document ids met in a list of entries, ['unknown'] standing for
    a missing one as in [get_collection_stats]. *)
Definition documents_of (es : list Entry) : gset MetaValue :=
  list_to_set
    ((λ e, default (MStr "unknown") (entry_metadata e !! "document_id"))
       <$> es).





Definition by_distance (h1 h2 : Hit) : Prop :=
  (hit_distance h1 <=? hit_distance h2)%float = true.

Definition by_similarity (h1 h2 : Hit) : Prop :=
  (hit_similarity h2 <=? hit_similarity h1)%float = true.

(** * Properties *)

(** ** Cosine similarity *)

Lemma dot_from_zero_vector (a : list float) :
  zero_vector a → Numpy.dot_from 0%float a a = 0%float.
Proof.
  induction 1 as [|x a Hx Ha IH]; [reflexivity|]. simpl.
  by destruct Hx as [-> | ->].
Qed.

(** The norm of a zero vector, of any length, is [0.0]. *)
Lemma norm_zero_vector (a : list float) :
  zero_vector a → (Numpy.norm a =? 0)%float = true.
Proof.
  intros Ha. unfold Numpy.norm. by rewrite dot_from_zero_vector.
Qed.

(** C4.  For vectors of equal length, when the norm of either is zero,
    [calculate_similarity] returns exactly [0.0]: it does not raise, and
    what it returns is not a NaN. *)
Theorem calculate_similarity_zero_norm (a b : list float) :
  length a = length b →
  (Numpy.norm a =? 0)%float = true ∨ (Numpy.norm b =? 0)%float = true →
  calculate_similarity a b = Ok 0%float ∧ PrimFloat.is_nan 0%float = false.
Proof.
  intros Hlen Hzero. split; [|reflexivity].
  unfold calculate_similarity, Numpy.dot. rewrite decide_True by done. simpl.
  destruct Hzero as [-> | ->]; [done|]. by rewrite orb_true_r.
Qed.

Lemma calculate_similarity_zero_norm_witness :
  calculate_similarity [0%float; 0%float] [3%float; 4%float] = Ok 0%float
  ∧ PrimFloat.is_nan 0%float = false.
Proof.
  apply (calculate_similarity_zero_norm [0%float; 0%float] [3%float; 4%float]).
  - reflexivity.
  - left. apply norm_zero_vector. repeat constructor; by left.
Defined.

(** C7.  For vectors of different lengths [calculate_similarity] raises:
    numpy's [dot] refuses the operands with a [ValueError], which the
    method logs and raises again.  This is the dimension-mismatch error
    of the specification. *)
Theorem calculate_similarity_length_mismatch (a b : list float) :
  length a ≠ length b →
  calculate_similarity a b = Raise (ValueError Numpy.shapes_not_aligned).
Proof.
  intros Hlen. unfold calculate_similarity, Numpy.dot.
  by rewrite decide_False.
Qed.

Lemma calculate_similarity_length_mismatch_witness :
  calculate_similarity [1%float; 2%float] [1%float]
  = Raise (ValueError Numpy.shapes_not_aligned).
Proof.
  apply (calculate_similarity_length_mismatch [1%float; 2%float] [1%float]).
  simpl. lia.
Defined.

(** ** Tenant check of [delete_collection] *)

(** A name that does not start with [user_<user_id>] is refused, and
    nothing is deleted. *)
Lemma delete_collection_refused (collection_name user_id : string)
    (self : VectorService.t) :
  String.prefix ("user_" ++ user_id) collection_name = false →
  VectorService.delete_collection collection_name user_id self
  = (Raise (ValueError "Collection does not belong to user"), self).
Proof. intros Hpre. unfold VectorService.delete_collection. by rewrite Hpre. Qed.

(** The example of the specification: user ["B"] may not drop
    ["user_A_collection"]. *)
Example delete_collection_other_tenant (self : VectorService.t) :
  VectorService.delete_collection "user_A_collection" "B" self
  = (Raise (ValueError "Collection does not belong to user"), self).
Proof. by apply delete_collection_refused. Qed.



(** C1, at the failing input.  User ["1"] asks to drop ["user_12"], the
    collection derived from user ["12"]: the prefix test lets the call
    through, and the backing collection and its cache entry are gone. *)
Theorem delete_collection_prefix_leak :
  let self := Scenario.two_users in
  let outcome := VectorService.delete_collection "user_12" "1" self in
  "user_12" ≠ "user_" ++ "1"
  ∧ (ids_of <$> client self !! "user_12") = Some ["uuid-1"]
  ∧ collections self !! "user_12" = Some "user_12"
  ∧ outcome.1 = Ok PyNone
  ∧ client outcome.2 !! "user_12" = None
  ∧ collections outcome.2 !! "user_12" = None.
Proof. repeat split; try done; vm_compute; reflexivity. Qed.

(** ** Reasoning about methods *)

Lemma bindM_ok {A B} (m : M A) (k : A → M B) (self self' : VectorService.t)
    (b : B) :
  bindM m k self = (Ok b, self') →
  ∃ a self1, m self = (Ok a, self1) ∧ k a self1 = (Ok b, self').
Proof.
  unfold bindM. destruct (m self) as [[a|e] self1]; [eauto|discriminate].
Qed.

Lemma bindM_step {A B} (m : M A) (k : A → M B) (self self1 : VectorService.t)
    (a : A) :
  m self = (Ok a, self1) → bindM m k self = k a self1.
Proof. unfold bindM. by intros ->. Qed.

Lemma collection_read_ok {A} (h : Handle) (f : Collection → Result A)
    (self self' : VectorService.t) (a : A) :
  collection_read h f self = (Ok a, self') →
  self' = self ∧ ∃ c, client self !! h = Some c ∧ f c = Ok a.
Proof.
  unfold collection_read. destruct (client self !! h) as [c|]; [|discriminate].
  intros [= Hf <-]. eauto.
Qed.

Lemma collection_read_at {A} (h : Handle) (f : Collection → Result A)
    (self : VectorService.t) (c : Collection) :
  client self !! h = Some c → collection_read h f self = (f c, self).
Proof. unfold collection_read. by intros ->. Qed.

(** ** The loop of [search_similar] *)

Lemma format_results_ok ids threshold i rows hits :
  format_results ids threshold i rows = Ok hits →
  Forall (clears threshold) hits
  ∧ Forall (λ hit, hit_similarity hit = (1 - hit_distance hit)%float) hits
  ∧ (hit_distance <$> hits) `sublist_of` rows.*2.
Proof.
  revert i hits.
  induction rows as [|[[doc metadata] distance] rows IH]; intros i hits; simpl.
  - intros [= <-]. repeat split; constructor.
  - destruct (threshold <=? 1 - distance)%float eqn:Hclear.
    + destruct (ids !! i) as [id|]; [|discriminate].
      destruct (format_results ids threshold (S i) rows) as [hits'|] eqn:Hrec;
        [|discriminate].
      intros [= <-]. destruct (IH _ _ Hrec) as (Hc & Hs & Hsub).
      repeat split; [constructor; done..|]. simpl. by constructor.
    + intros Hrec. destruct (IH _ _ Hrec) as (Hc & Hs & Hsub).
      repeat split; [done..|]. by constructor.
Qed.

Lemma format_results_total ids threshold i rows :
  (i + length rows ≤ length ids)%nat →
  ∃ hits, format_results ids threshold i rows = Ok hits.
Proof.
  revert i.
  induction rows as [|[[doc metadata] distance] rows IH]; intros i Hlen; simpl.
  - eauto.
  - simpl in Hlen. destruct (IH (S i)) as [hits ->]; [lia|].
    destruct (threshold <=? 1 - distance)%float; [|eauto].
    destruct (lookup_lt_is_Some_2 ids i) as [id ->]; [lia|]. simpl. eauto.
Qed.

Lemma format_results_none ids threshold i rows :
  Forall (λ d, (threshold <=? 1 - d)%float = false) rows.*2 →
  format_results ids threshold i rows = Ok [].
Proof.
  revert i.
  induction rows as [|[[doc metadata] distance] rows IH]; intros i Hnone; simpl.
  - done.
  - simpl in Hnone. apply Forall_cons in Hnone as [-> Hnone]. by apply IH.
Qed.

Lemma rows_of_distances (r : QueryResult) :
  (rows_of r).*2 `sublist_of` qr_distances r.
Proof.
  unfold rows_of. generalize (zip (qr_documents r) (qr_metadatas r)).
  induction (qr_distances r) as [|d ds IH]; intros [|x xs]; simpl;
    try constructor; auto using sublist_nil_l.
Qed.

Lemma rows_of_length (r : QueryResult) :
  (length (rows_of r) ≤ length (qr_distances r))%nat.
Proof.
  rewrite <- (length_fmap snd). apply sublist_length, rows_of_distances.
Qed.

Lemma Forall_sublist {A} (P : A → Prop) (l k : list A) :
  l `sublist_of` k → Forall P k → Forall P l.
Proof.
  rewrite !Forall_forall. intros Hsub Hk x Hx. eauto using elem_of_sublist.
Qed.

Lemma StronglySorted_sublist {A} (R : relation A) (l k : list A) :
  l `sublist_of` k → StronglySorted R k → StronglySorted R l.
Proof.
  induction 1 as [|x l k Hsub IH|x l k Hsub IH]; intros Hk.
  - constructor.
  - apply StronglySorted_inv in Hk as [Hk Hx]. constructor; [by apply IH|].
    by eapply Forall_sublist.
  - apply StronglySorted_inv in Hk as [Hk _]. by apply IH.
Qed.

Lemma StronglySorted_impl {A} (R R' : relation A) (l : list A) :
  (∀ x y, x ∈ l → y ∈ l → R x y → R' x y) →
  StronglySorted R l → StronglySorted R' l.
Proof.
  induction l as [|x l IH]; intros HR Hl; [constructor|].
  apply StronglySorted_inv in Hl as [Hl Hx]. constructor.
  - apply IH; [|done]. intros y z Hy Hz. apply HR; by constructor.
  - rewrite Forall_forall in Hx |- *. intros y Hy.
    apply HR; [by constructor|by constructor|by apply Hx].
Qed.

Lemma exact_well_formed : well_formed Exact.backend.
Proof.
  intros records q n r. simpl. unfold Exact.knn.
  destruct (n <=? 0)%Z eqn:Hn; [discriminate|].
  destruct (filter _ records); [|discriminate].
  intros [= <-]. simpl. rewrite !length_fmap, length_take.
  repeat split. lia.
Qed.


(** ** Resolving a user's collection *)

Section Resolve.
Context `{B : Backend}.

Lemma get_collection_ok (u : string) (self sa : VectorService.t) (h : Handle) :
  _get_collection u self = (Ok h, sa) →
  collections sa !! ("user_" ++ u) = Some h
  ∧ uuid_draws sa = uuid_draws self
  ∧ (∀ n c, client sa !! n = Some c →
            client self !! n = Some c
            ∨ client self !! n = None ∧ col_records c = []).
Proof.
  unfold _get_collection.
  destruct (collections self !! ("user_" ++ u)) as [h'|] eqn:Hcache.
  { intros [= <- <-]. eauto. }
  unfold Chroma.get_collection, Chroma.create_collection.
  destruct (client self !! ("user_" ++ u)) as [c0|] eqn:Hstore.
  { intros [= <- <-]. simpl. rewrite lookup_insert_eq. eauto. }
  destruct (valid_name ("user_" ++ u)); simpl; [|discriminate].
  intros [= <- <-]. simpl. rewrite lookup_insert_eq. repeat split.
  intros n c. destruct (decide (n = "user_" ++ u)) as [->|Hne].
  - rewrite lookup_insert_eq. intros [= <-]. by right.
  - rewrite lookup_insert_ne by done. by left.
Qed.

Lemma get_collection_cached (u : string) (self : VectorService.t) (h : Handle) :
  collections self !! ("user_" ++ u) = Some h →
  _get_collection u self = (Ok h, self).
Proof. unfold _get_collection. by intros ->. Qed.

(** On a coherent service whose store knows the user's collection, or
    will accept its name, the collection resolves, to a handle the
    store knows. *)
Lemma get_collection_total (u : string) (self : VectorService.t) :
  coherent self →
  is_Some (client self !! ("user_" ++ u)) ∨ valid_name ("user_" ++ u) = true →
  ∃ sa c,
    _get_collection u self = (Ok ("user_" ++ u), sa)
    ∧ client sa !! ("user_" ++ u) = Some c.
Proof.
  intros Hco Hname. unfold _get_collection.
  destruct (collections self !! ("user_" ++ u)) as [h|] eqn:Hcache.
  { destruct (Hco _ _ Hcache) as [-> [c Hc]]. eauto. }
  unfold Chroma.get_collection, Chroma.create_collection.
  destruct (client self !! ("user_" ++ u)) as [c|] eqn:Hstore; [eauto|].
  destruct Hname as [[c Hc]| ->]; [done|]. simpl.
  eexists _, _. split; [done|]. simpl. apply lookup_insert_eq.
Qed.

End Resolve.

(** [answer_hits] reads the answer position by position: its [i]-th
    hit is made of the [i]-th id, document, metadata and distance. *)
Lemma answer_hits_lookup (r : QueryResult) (i : nat) (hit : Hit) :
  answer_hits r !! i = Some hit ↔
  qr_ids r !! i = Some (hit_id hit)
  ∧ qr_documents r !! i = Some (hit_document hit)
  ∧ qr_metadatas r !! i = Some (hit_metadata hit)
  ∧ qr_distances r !! i = Some (hit_distance hit)
  ∧ hit_similarity hit = (1 - hit_distance hit)%float.
Proof.
  unfold answer_hits, rows_of. rewrite list_lookup_fmap_Some. split.
  - intros ([id [[doc metadata] distance]] & -> & Hrow).
    apply lookup_zip_with_Some in Hrow
      as (? & ? & [= <- <-] & Hid & Hrow).
    apply lookup_zip_with_Some in Hrow
      as (? & ? & [= <- <-] & Hrow & Hdistance).
    apply lookup_zip_with_Some in Hrow
      as (? & ? & [= <- <-] & Hdoc & Hmetadata).
    by split_and!.
  - intros (Hid & Hdoc & Hmetadata & Hdistance & Hsim).
    exists (hit_id hit, (hit_document hit, hit_metadata hit, hit_distance hit)).
    split.
    + destruct hit. simpl in *. by subst.
    + rewrite lookup_zip_with, Hid. simpl.
      rewrite lookup_zip_with, lookup_zip_with, Hdoc. simpl.
      by rewrite Hmetadata, Hdistance.
Qed.

Lemma format_results_filter ids threshold i rows hits :
  format_results ids threshold i rows = Ok hits →
  hits = filter (clears threshold) (hit_of <$> zip (drop i ids) rows).
Proof.
  revert i hits.
  induction rows as [|[[doc metadata] distance] rows IH]; intros i hits.
  - intros [= <-]. by destruct (drop i ids).
  - cbn [format_results]. destruct (ids !! i) as [id|] eqn:Hid.
    + rewrite (drop_S _ _ _ Hid). cbn [zip zip_with fmap list_fmap].
      intros Hrun. rewrite filter_cons.
      destruct (decide (clears threshold (hit_of (id, (doc, metadata, distance)))))
        as [Hclear|Hclear]; unfold clears in Hclear; cbn in Hclear.
      * rewrite Hclear in Hrun.
        destruct (format_results ids threshold (S i) rows) as [hits'|] eqn:Hrec;
          [|discriminate].
        injection Hrun as <-. f_equal. by apply IH.
      * apply not_true_is_false in Hclear. rewrite Hclear in Hrun.
        by apply IH.
    + apply lookup_ge_None in Hid.
      destruct (threshold <=? 1 - distance)%float; [discriminate|].
      intros Hrec. rewrite (IH _ _ Hrec).
      by rewrite !drop_ge by lia.
Qed.

Lemma exact_answers : answers Exact.backend.
Proof.
  intros records q n Hn Hq Hdim. simpl. unfold Exact.knn.
  rewrite (proj2 (Z.leb_gt n 0)) by lia.
  assert (filter (λ e, length (entry_embedding e) ≠ length q) records = [])
    as ->; [|eauto].
  induction Hdim as [|e records He Hdim IH]; [done|].
  rewrite filter_cons. by rewrite decide_False by (by intros ?).
Qed.

Section Search.
Context `{B : Backend}.

Lemma search_similar_run q u k t self h sa c r :
  _get_collection u self = (Ok h, sa) →
  client sa !! h = Some c →
  Chroma.query c q k = Ok r →
  search_similar q u k t self
  = (format_results (qr_ids r) t 0 (rows_of r), sa).
Proof.
  intros Hget Hc Hq. unfold search_similar.
  rewrite (bindM_step _ _ _ _ _ Hget).
  rewrite (bindM_step _ _ sa sa r); [done|].
  by rewrite (collection_read_at _ _ _ _ Hc), Hq.
Qed.

Lemma search_similar_ok q u k t self hits self' :
  search_similar q u k t self = (Ok hits, self') →
  ∃ h c r,
    _get_collection u self = (Ok h, self')
    ∧ client self' !! h = Some c
    ∧ Chroma.query c q k = Ok r
    ∧ format_results (qr_ids r) t 0 (rows_of r) = Ok hits.
Proof.
  unfold search_similar. intros Hrun.
  apply bindM_ok in Hrun as (h & s1 & Hget & Hrun).
  apply bindM_ok in Hrun as (r & s2 & Hread & Hrun).
  apply collection_read_ok in Hread as (-> & c & Hc & Hq).
  unfold lift in Hrun. injection Hrun as Hfmt <-. eauto 10.
Qed.

(** The collection a user resolves to holds what the store held under
    its handle: nothing, when it has just been created. *)
Lemma resolved_entries u self h sa c :
  _get_collection u self = (Ok h, sa) →
  client sa !! h = Some c →
  col_records c = entries self h.
Proof.
  intros Hget Hc. destruct (get_collection_ok _ _ _ _ Hget) as (_ & _ & Hstore).
  unfold entries. by destruct (Hstore _ _ Hc) as [-> | [-> ->]].
Qed.

(** C2, as amended.  The index answers with at most [n_results] rows,
    and answers every query for at least one neighbour with a non-empty
    vector of the stored length.  Then, on a service whose cache is
    coherent and whose store holds the user's collection or accepts its
    name: whatever [search_similar] returns has at most [limit] results,
    each of similarity at least [threshold]; for a limit below zero it
    raises; for a limit of at least 1 and a query vector of the stored
    length it returns, and returns the empty list when no distance in the
    index's answer clears the threshold. *)
Theorem search_similar_bounded (q : list float) (user_id : string)
    (limit : Z) (threshold : float) (self : VectorService.t) :
  well_formed B →
  answers B →
  coherent self →
  is_Some (client self !! ("user_" ++ user_id))
  ∨ valid_name ("user_" ++ user_id) = true →
  (∀ hits self',
     search_similar q user_id limit threshold self = (Ok hits, self') →
     (Z.of_nat (length hits) ≤ limit)%Z ∧ Forall (clears threshold) hits)
  ∧ ((limit < 0)%Z →
     ∃ e self',
       search_similar q user_id limit threshold self = (Raise e, self'))
  ∧ ((1 ≤ limit)%Z →
     q ≠ [] →
     Forall (λ e, length (entry_embedding e) = length q)
       (entries self ("user_" ++ user_id)) →
     ∃ r hits self',
       knn (entries self ("user_" ++ user_id)) q limit = Ok r
       ∧ search_similar q user_id limit threshold self = (Ok hits, self')
       ∧ (Forall (λ d, (threshold <=? 1 - d)%float = false) (qr_distances r) →
          hits = [])).
Proof.
  intros Hwf Hans Hco Hname.
  assert (Hbound : ∀ hits self',
    search_similar q user_id limit threshold self = (Ok hits, self') →
    (Z.of_nat (length hits) ≤ limit)%Z ∧ Forall (clears threshold) hits).
  { intros hits self' Hrun.
    apply search_similar_ok in Hrun as (h & c & r & _ & _ & Hq & Hfmt).
    destruct (Hwf _ _ _ _ Hq) as (_ & _ & _ & Hk).
    destruct (format_results_ok _ _ _ _ _ Hfmt) as (Hclear & _ & Hsub).
    split; [|done]. apply sublist_length in Hsub.
    rewrite !length_fmap in Hsub. pose proof (rows_of_length r). lia. }
  split_and!; [done| |].
  - intros Hneg.
    destruct (search_similar q user_id limit threshold self)
      as [[hits|e] self'] eqn:Hrun; [|eauto].
    destruct (Hbound _ _ eq_refl) as [Hlen _]. lia.
  - intros Hlimit Hq Hdim.
    destruct (get_collection_total user_id self Hco Hname)
      as (sa & c & Hget & Hc).
    pose proof (resolved_entries _ _ _ _ _ Hget Hc) as Hrec.
    rewrite <- Hrec in Hdim |- *.
    destruct (Hans _ _ _ Hlimit Hq Hdim) as [r Hr].
    rewrite (search_similar_run _ _ _ threshold _ _ _ _ r Hget Hc Hr).
    destruct (Hwf _ _ _ _ Hr) as (Hids & _).
    destruct (format_results_total (qr_ids r) threshold 0 (rows_of r))
      as [hits Hfmt].
    { pose proof (rows_of_length r). simpl. lia. }
    exists r, hits, sa. rewrite Hfmt. split_and!; [done..|].
    intros Hnone. rewrite format_results_none in Hfmt; [by injection Hfmt|].
    eapply Forall_sublist; [apply rows_of_distances|done].
Qed.

(** C3, as amended.  [search_similar] returns the rows of the index's
    answer whose similarity clears the threshold, each with the id,
    document, metadata and distance the answer has at its position, in
    the order of the answer.  When that answer lists the nearest entry
    first, the results are by ascending distance, and so, subtraction
    from [1.0] reversing the order of these distances, by descending
    similarity.  Results of equal similarity stay in the order the index
    gave them. *)
Theorem search_similar_order (q : list float) (user_id : string) (limit : Z)
    (threshold : float) (self sa self' : VectorService.t) (h : Handle)
    (c : Collection) (r : QueryResult) (hits : list Hit) :
  _get_collection user_id self = (Ok h, sa) →
  client sa !! h = Some c →
  Chroma.query c q limit = Ok r →
  search_similar q user_id limit threshold self = (Ok hits, self') →
  nearest_first r →
  sub_antitone_on (qr_distances r) →
  hits = filter (clears threshold) (answer_hits r)
  ∧ (hit_distance <$> hits) `sublist_of` qr_distances r
  ∧ StronglySorted by_distance hits
  ∧ StronglySorted by_similarity hits.
Proof.
  intros Hget Hc Hq Hrun Hnear Hanti.
  rewrite (search_similar_run _ _ _ threshold _ _ _ _ _ Hget Hc Hq) in Hrun.
  injection Hrun as Hfmt _.
  destruct (format_results_ok _ _ _ _ _ Hfmt) as (_ & Hsim & Hsub).
  assert (Hsub' : (hit_distance <$> hits) `sublist_of` qr_distances r)
    by (etrans; [done|apply rows_of_distances]).
  assert (Hdist : StronglySorted by_distance hits).
  { apply (StronglySorted_sublist _ _ _ Hsub') in Hnear.
    clear -Hnear. induction hits as [|x hits IH]; [constructor|].
    simpl in Hnear. apply StronglySorted_inv in Hnear as [Hs Hx].
    constructor; [by apply IH|]. by apply Forall_fmap in Hx. }
  split_and!; [by apply (format_results_filter _ _ 0)|done..|].
  eapply StronglySorted_impl; [|exact Hdist].
  intros x y Hx Hy Hxy. unfold by_similarity.
  rewrite Forall_forall in Hsim. rewrite (Hsim x Hx), (Hsim y Hy).
  apply Hanti; [| |done].
  - eapply elem_of_sublist; [|done]. by apply list_elem_of_fmap_2.
  - eapply elem_of_sublist; [|done]. by apply list_elem_of_fmap_2.
Qed.

End Search.

(** ** What every method keeps *)

#[local] Instance kept_preorder : PreOrder kept.
Proof.
  split.
  - intros self name c Hc. eauto.
  - intros s1 s2 s3 H12 H23 name c Hc.
    destruct (H12 _ _ Hc) as (c2 & Hc2 & Hp2).
    destruct (H23 _ _ Hc2) as (c3 & Hc3 & Hp3).
    exists c3. split; [done|]. by etrans.
Qed.

#[local] Instance coherent_preorder :
  PreOrder (λ self self', coherent self → coherent self').
Proof. split; [by intros self|]. intros s1 s2 s3 H12 H23 H1. auto. Qed.

Lemma relates_ret {A} (R : relation VectorService.t) `{!Reflexive R} (a : A) :
  relates R (ret a).
Proof. by intros self r self' [= <- <-]. Qed.



Lemma relates_bind {A C} (R : relation VectorService.t) `{!Transitive R}
    (m : M A) (k : A → M C) :
  relates R m → (∀ a, relates R (k a)) → relates R (bindM m k).
Proof.
  intros Hm Hk self r self'. unfold bindM.
  destruct (m self) as [[a|e] s1] eqn:Hrun.
  - intros Hrest. etrans; [by eapply Hm|by eapply Hk].
  - intros [= <- <-]. by eapply Hm.
Qed.

Section Invariants.
Context `{B : Backend} `{U : UuidSource}.

Lemma kept_same_client (self self' : VectorService.t) :
  client self' = client self → kept self self'.
Proof. intros Heq name c Hc. rewrite Heq. eauto. Qed.

Lemma get_collection_kept u : relates kept (_get_collection u).
Proof.
  intros self r self'. unfold _get_collection.
  destruct (collections self !! ("user_" ++ u)) as [h'|].
  { by intros [= <- <-]. }
  unfold Chroma.get_collection, Chroma.create_collection.
  destruct (client self !! ("user_" ++ u)) as [c0|] eqn:Hstore.
  { intros [= <- <-]. by apply kept_same_client. }
  destruct (valid_name ("user_" ++ u)); simpl; [|by intros [= <- <-]].
  intros [= <- <-] name c Hc. exists c. split; [|done]. simpl.
  rewrite lookup_insert_ne; [done|]. by intros <-; rewrite Hstore in Hc.
Qed.

Lemma get_collection_coherent u :
  relates (λ self self', coherent self → coherent self') (_get_collection u).
Proof.
  intros self r self'. unfold _get_collection.
  destruct (collections self !! ("user_" ++ u)) as [h'|].
  { by intros [= <- <-]. }
  unfold Chroma.get_collection, Chroma.create_collection.
  destruct (client self !! ("user_" ++ u)) as [c0|] eqn:Hstore.
  { intros [= <- <-] Hco name h. simpl.
    destruct (decide (name = "user_" ++ u)) as [->|Hne].
    - rewrite lookup_insert_eq. intros [= <-]. eauto.
    - rewrite lookup_insert_ne by done. apply Hco. }
  destruct (valid_name ("user_" ++ u)); simpl; [|by intros [= <- <-]].
  intros [= <- <-] Hco name h. simpl.
  destruct (decide (name = "user_" ++ u)) as [->|Hne].
  - rewrite !lookup_insert_eq. intros [= <-]. eauto.
  - rewrite !lookup_insert_ne by done. apply Hco.
Qed.

Lemma uuid4_relates (R : relation VectorService.t) :
  (∀ self, R self (drawn self)) → relates R uuid_uuid4.
Proof. intros HR self r self' [= <- <-]. apply HR. Qed.

Lemma collection_add_kept h id emb text metadata :
  relates kept (collection_add h id emb text metadata).
Proof.
  intros self r self'. unfold collection_add.
  destruct (client self !! h) as [c|] eqn:Hc; [|by intros [= <- <-]].
  destruct (Chroma.add c id emb text metadata) as [c'|e] eqn:Hadd;
    [|by intros [= <- <-]].
  intros [= <- <-] name c0 Hc0. simpl.
  destruct (decide (name = h)) as [->|Hne].
  - rewrite lookup_insert_eq. exists c'. split; [done|].
    rewrite Hc in Hc0. injection Hc0 as <-.
    unfold Chroma.add in Hadd. destruct emb; [discriminate|].
    destruct (decide (default _ _ = _)) as [_|]; [|discriminate].
    destruct (decide (_ ∈ ids_of c)) as [_|_]; injection Hadd as <-;
      [done|]. simpl. by apply prefix_app_r.
  - rewrite lookup_insert_ne by done. eauto.
Qed.

Lemma client_update_coherent (self : VectorService.t) h c c' :
  client self !! h = Some c →
  coherent self → coherent (set_client (<[h := c']> (client self)) self).
Proof.
  intros Hc Hco name h' Hcache. destruct (Hco _ _ Hcache) as [-> Hsome].
  split; [done|]. simpl. rewrite lookup_insert. by case_decide.
Qed.

Lemma collection_add_coherent h id emb text metadata :
  relates (λ self self', coherent self → coherent self')
    (collection_add h id emb text metadata).
Proof.
  intros self r self'. unfold collection_add.
  destruct (client self !! h) as [c|] eqn:Hc; [|by intros [= <- <-]].
  destruct (Chroma.add c id emb text metadata) as [c'|e];
    intros [= <- <-]; [|done].
  by eapply client_update_coherent.
Qed.


(** [store_embedding] overwrites nothing: whether it returns or raises,
    every collection keeps the entries it had. *)
Lemma store_embedding_kept text emb doc u meta :
  relates kept (store_embedding text emb doc u meta).
Proof.
  unfold store_embedding.
  apply relates_bind; [apply _|apply get_collection_kept|]. intros h.
  apply relates_bind;
    [apply _|apply uuid4_relates; intros; by apply kept_same_client|].
  intros id.
  apply relates_bind; [apply _|apply collection_add_kept|]. intros _.
  apply relates_ret, _.
Qed.

(** Every method keeps the cache coherent. *)
Lemma store_embedding_coherent text emb doc u meta :
  relates (λ self self', coherent self → coherent self')
    (store_embedding text emb doc u meta).
Proof.
  unfold store_embedding.
  apply relates_bind; [apply _|apply get_collection_coherent|]. intros h.
  apply relates_bind; [apply _|by apply uuid4_relates|]. intros id.
  apply relates_bind; [apply _|apply collection_add_coherent|]. intros _.
  apply relates_ret, _.
Qed.





End Invariants.

(** ** [store_embedding] *)

Section Store.
Context `{B : Backend} `{U : UuidSource}.

Lemma store_embedding_run text emb doc u meta self h sa c :
  _get_collection u self = (Ok h, sa) →
  client sa !! h = Some c →
  store_embedding text emb doc u meta self
  = match Chroma.add c (uuid4 (uuid_draws sa)) emb text
            (embedding_metadata text doc u meta) with
    | Ok c' => (Ok (uuid4 (uuid_draws sa)),
                set_client (<[h := c']> (client sa)) (drawn sa))
    | Raise e => (Raise e, drawn sa)
    end.
Proof.
  intros Hget Hc. unfold store_embedding.
  rewrite (bindM_step _ _ _ _ _ Hget).
  unfold bindM at 1, uuid_uuid4. unfold bindM, collection_add. simpl.
  rewrite Hc. by destruct (Chroma.add _ _ _ _ _).
Qed.

Lemma store_embedding_ok text emb doc u meta self id self' :
  store_embedding text emb doc u meta self = (Ok id, self') →
  ∃ h sa c c',
    _get_collection u self = (Ok h, sa)
    ∧ client sa !! h = Some c
    ∧ id = uuid4 (uuid_draws sa)
    ∧ Chroma.add c id emb text (embedding_metadata text doc u meta) = Ok c'
    ∧ self' = set_client (<[h := c']> (client sa)) (drawn sa).
Proof.
  intros Hrun. pose proof Hrun as Hrun'. unfold store_embedding in Hrun'.
  apply bindM_ok in Hrun' as (h & sa & Hget & Hrest).
  apply bindM_ok in Hrest as (id' & sb & Hdraw & Hrest).
  apply bindM_ok in Hrest as ([] & sc & Hadd & _).
  injection Hdraw as <- <-. unfold collection_add in Hadd. simpl in Hadd.
  destruct (client sa !! h) as [c|] eqn:Hc; [|discriminate].
  rewrite (store_embedding_run _ _ _ _ _ _ _ _ _ Hget Hc) in Hrun.
  destruct (Chroma.add _ _ _ _ _) as [c'|] eqn:Hc'; [|discriminate].
  injection Hrun as <- <-. eauto 10.
Qed.

Lemma add_appends c id emb text metadata :
  emb ≠ [] →
  default (length emb) (col_dimension c) = length emb →
  id ∉ ids_of c →
  Chroma.add c id emb text metadata
  = Ok {| col_name := col_name c; col_metadata := col_metadata c;
          col_dimension := Some (length emb);
          col_records := col_records c ++
            [{| entry_id := id; entry_embedding := emb;
                entry_document := text; entry_metadata := metadata |}] |}.
Proof.
  intros Hemb Hdim Hid. unfold Chroma.add. destruct emb; [done|].
  by rewrite decide_True, decide_False.
Qed.

Lemma add_refuses c id emb text metadata d :
  emb ≠ [] → col_dimension c = Some d → length emb ≠ d →
  Chroma.add c id emb text metadata
  = Raise (InvalidDimensionException (length emb) d).
Proof.
  intros Hemb Hdim Hlen. unfold Chroma.add. destruct emb; [done|].
  rewrite Hdim. simpl. by rewrite decide_False.
Qed.

(** C5, as amended.  [store_embedding] compares the vector's length with
    nothing; it is the index that refuses a vector, with its own
    dimension error, once the collection has a dimensionality (that of
    the first vector stored in it) and the vector has another length,
    and then nothing is stored.  A non-empty vector is stored whenever
    the collection has no dimensionality yet or has the vector's, and
    fixes it. *)
Theorem store_embedding_dimension (text : string) (emb : list float)
    (doc u : string) (meta : option Metadata) (self sa : VectorService.t)
    (h : Handle) (c : Collection) :
  _get_collection u self = (Ok h, sa) →
  client sa !! h = Some c →
  emb ≠ [] →
  let outcome := store_embedding text emb doc u meta self in
  let id := uuid4 (uuid_draws sa) in
  (∀ d, col_dimension c = Some d → length emb ≠ d →
        outcome.1 = Raise (InvalidDimensionException (length emb) d)
        ∧ client outcome.2 = client sa)
  ∧ (col_dimension c = None ∨ col_dimension c = Some (length emb) →
     id ∉ ids_of c →
     outcome.1 = Ok id
     ∧ entries outcome.2 h
       = (col_records c ++ [new_entry id text emb doc u meta])%list
     ∧ (col_dimension <$> client outcome.2 !! h) = Some (Some (length emb))).
Proof.
  intros Hget Hc Hemb outcome id. subst outcome id.
  rewrite (store_embedding_run _ _ _ _ _ _ _ _ _ Hget Hc). split.
  - intros d Hdim Hlen. by rewrite (add_refuses _ _ _ _ _ d).
  - intros Hdim Hid. rewrite add_appends; [| done | | done].
    + unfold entries. simpl. by rewrite lookup_insert_eq.
    + by destruct Hdim as [-> | ->].
Qed.

Lemma issued_get_collection u self h sa :
  _get_collection u self = (Ok h, sa) → issued self → issued sa.
Proof.
  intros Hget Hiss name c e Hc He.
  destruct (get_collection_ok _ _ _ _ Hget) as (_ & -> & Hstore).
  destruct (Hstore _ _ Hc) as [Hold|[_ Hnil]]; [by eapply Hiss|].
  rewrite Hnil in He. by apply elem_of_nil in He.
Qed.

Lemma issued_fresh_id self c name :
  Inj (=) (=) uuid4 → issued self → client self !! name = Some c →
  uuid4 (uuid_draws self) ∉ ids_of c.
Proof.
  intros Hinj Hiss Hc Hin. unfold ids_of in Hin.
  apply list_elem_of_fmap in Hin as (e & Hid & He).
  destruct (Hiss _ _ _ Hc He) as (n & Hn & Hid').
  rewrite Hid' in Hid. apply Hinj in Hid. lia.
Qed.

(** [store_embedding] keeps the invariant. *)
Lemma issued_store_embedding text emb doc u meta self id self' :
  store_embedding text emb doc u meta self = (Ok id, self') →
  issued self → issued self'.
Proof.
  intros Hrun Hiss.
  apply store_embedding_ok in Hrun as (h & sa & c & c' & Hget & Hc & -> & Hadd & ->).
  apply (issued_get_collection _ _ _ _ Hget) in Hiss.
  intros name c1 e. simpl.
  destruct (decide (name = h)) as [->|Hne].
  - rewrite lookup_insert_eq. intros [= <-] He.
    unfold Chroma.add in Hadd. destruct emb; [discriminate|].
    destruct (decide (default _ _ = _)) as [_|]; [|discriminate].
    destruct (decide (_ ∈ ids_of c)) as [_|_].
    + injection Hadd as <-. destruct (Hiss _ _ _ Hc He) as (n & Hn & Hid).
      exists n. split; [lia|done].
    + injection Hadd as <-. simpl in He. apply elem_of_app in He as [He|He].
      * destruct (Hiss _ _ _ Hc He) as (n & Hn & Hid).
        exists n. split; [lia|done].
      * apply list_elem_of_singleton in He as ->. simpl. eauto.
  - rewrite lookup_insert_ne by done. intros Hc1 He.
    destruct (Hiss _ _ _ Hc1 He) as (n & Hn & Hid). exists n. split; [lia|done].
Qed.

(** C10.  The uuid source having no collisions, and the ids in the store
    having been drawn from it: two calls of [store_embedding] with the
    same arguments return the two ids drawn for them, which differ, and
    append two entries under these ids to what the user's collection
    held; every collection keeps the entries it had. *)
Theorem store_embedding_fresh_ids (text : string) (emb : list float)
    (doc u : string) (meta : option Metadata)
    (self self1 self2 : VectorService.t) (id1 id2 : string) :
  Inj (=) (=) uuid4 →
  issued self →
  store_embedding text emb doc u meta self = (Ok id1, self1) →
  store_embedding text emb doc u meta self1 = (Ok id2, self2) →
  id1 = uuid4 (uuid_draws self)
  ∧ id2 = uuid4 (S (uuid_draws self))
  ∧ id1 ≠ id2
  ∧ (∃ h, collections self2 !! ("user_" ++ u) = Some h
          ∧ entries self2 h
            = (entries self h ++ [new_entry id1 text emb doc u meta;
                                  new_entry id2 text emb doc u meta])%list)
  ∧ kept self self2.
Proof.
  intros Hinj Hiss Hrun1 Hrun2.
  assert (Hkept : kept self self2).
  { etrans; by eapply store_embedding_kept. }
  pose proof (issued_store_embedding _ _ _ _ _ _ _ _ Hrun1 Hiss) as Hiss1.
  apply store_embedding_ok in Hrun1
    as (h & sa & c & c1 & Hget & Hc & -> & Hadd1 & ->).
  destruct (get_collection_ok _ _ _ _ Hget) as (Hcache & Hdraws & Hstore).
  pose proof (issued_get_collection _ _ _ _ Hget Hiss) as Hissa.
  assert (Hemb : emb ≠ []).
  { intros ->. discriminate Hadd1. }
  assert (Hdim : default (length emb) (col_dimension c) = length emb).
  { unfold Chroma.add in Hadd1. destruct emb; [done|].
    by destruct (decide (default _ _ = _)). }
  rewrite add_appends in Hadd1
    by eauto using issued_fresh_id. injection Hadd1 as <-.
  set (s1 := set_client _ (drawn sa)) in *.
  assert (Hget1 : _get_collection u s1 = (Ok h, s1))
    by (by apply get_collection_cached).
  assert (Hc1 : client s1 !! h = Some
    {| col_name := col_name c; col_metadata := col_metadata c;
       col_dimension := Some (length emb);
       col_records := (col_records c ++
         [new_entry (uuid4 (uuid_draws sa)) text emb doc u meta])%list |})
    by (subst s1; simpl; by rewrite lookup_insert_eq).
  rewrite (store_embedding_run _ _ _ _ _ _ _ _ _ Hget1 Hc1) in Hrun2.
  rewrite add_appends in Hrun2; [|done|done|by eapply issued_fresh_id].
  injection Hrun2 as <- <-. rewrite <- Hdraws. split_and!.
  - done.
  - done.
  - intros Heq. apply Hinj in Heq. simpl in Heq. lia.
  - exists h. split; [done|]. unfold entries. simpl.
    rewrite lookup_insert_eq. simpl. rewrite <- app_assoc. f_equal.
    by destruct (Hstore _ _ Hc) as [-> | [-> ->]].
  - done.
Qed.

End Store.

(** ** The states the service reaches *)

#[local] Instance shrunk_preorder : PreOrder shrunk.
Proof.
  split.
  - intros self. split; [done|]. intros name c Hc. right. eauto.
  - intros s1 s2 s3 [Hd12 H12] [Hd23 H23]. split; [lia|].
    intros name c3 Hc3.
    destruct (H23 _ _ Hc3) as [Hnil|(c2 & Hc2 & Hsub2)]; [by left|].
    destruct (H12 _ _ Hc2) as [Hnil|(c1 & Hc1 & Hsub1)].
    + left. rewrite Hnil in Hsub2. by apply sublist_nil_r.
    + right. exists c1. split; [done|]. by etrans.
Qed.



Section Reachable.
Context `{B : Backend} `{U : UuidSource}.









End Reachable.

(** ** Deleting the embeddings of a document *)

Lemma NoDup_fmap_eq {A E} (f : A → E) (l : list A) (x y : A) :
  NoDup (f <$> l) → x ∈ l → y ∈ l → f x = f y → x = y.
Proof.
  induction l as [|a l IH]; intros Hnd Hx Hy Heq; [by apply elem_of_nil in Hx|].
  rewrite fmap_cons in Hnd. apply NoDup_cons in Hnd as [Ha Hnd].
  apply elem_of_cons in Hx as [->|Hx]; apply elem_of_cons in Hy as [->|Hy].
  - done.
  - destruct Ha. rewrite Heq. by apply list_elem_of_fmap_2.
  - destruct Ha. rewrite <- Heq. by apply list_elem_of_fmap_2.
  - by apply IH.
Qed.

Lemma filter_out_ids (P : Entry → Prop) `{!∀ e, Decision (P e)}
    (l : list Entry) :
  NoDup (entry_id <$> l) →
  filter (λ e, entry_id e ∉ entry_id <$> filter P l) l = filter (λ e, ¬ P e) l.
Proof.
  intros Hnd.
  assert (Hiff : ∀ e, e ∈ l → (entry_id e ∉ entry_id <$> filter P l) ↔ ¬ P e).
  { intros e He. split; intros Hn HP; apply Hn.
    - apply list_elem_of_fmap_2. by apply list_elem_of_filter.
    - apply list_elem_of_fmap in HP as (e' & Hid & He').
      apply list_elem_of_filter in He' as [HP' He'].
      by rewrite (NoDup_fmap_eq entry_id l e e' Hnd He He'). }
  generalize (entry_id <$> filter P l) Hiff. clear Hnd Hiff.
  induction l as [|x l IH]; intros ids Hiff; [done|].
  rewrite !filter_cons.
  assert (Hl : ∀ e, e ∈ l → entry_id e ∉ ids ↔ ¬ P e)
    by (intros e He; apply Hiff; by constructor).
  specialize (Hiff x (list_elem_of_here _ _)).
  destruct (decide (entry_id x ∉ ids)), (decide (¬ P x));
    rewrite ?(IH ids Hl); tauto.
Qed.

Lemma filter_rest_all {A} (P : A → Prop) `{!∀ x, Decision (P x)} (l : list A) :
  filter P l = [] → filter (λ x, ¬ P x) l = l.
Proof.
  induction l as [|x l IH]; [done|]. rewrite !filter_cons.
  destruct (decide (P x)); [discriminate|]. intros Hl.
  rewrite decide_True by done. by rewrite IH.
Qed.

Lemma filter_rest_none {A} (P : A → Prop) `{!∀ x, Decision (P x)}
    (l : list A) :
  filter P (filter (λ x, ¬ P x) l) = [].
Proof.
  induction l as [|x l IH]; [done|]. rewrite filter_cons.
  destruct (decide (¬ P x)); [|done].
  rewrite filter_cons. by rewrite decide_False.
Qed.

Lemma filter_rest_length {A} (P : A → Prop) `{!∀ x, Decision (P x)}
    (l : list A) :
  (length (filter (λ x, ¬ P x) l) + length (filter P l) = length l)%nat.
Proof.
  induction l as [|x l IH]; [done|]. rewrite !filter_cons.
  destruct (decide (P x)).
  - rewrite decide_False by tauto. simpl. lia.
  - rewrite decide_True by done. simpl. lia.
Qed.

Section Delete.
Context `{B : Backend}.

Lemma delete_document_embeddings_run doc u self h sa c :
  _get_collection u self = (Ok h, sa) →
  client sa !! h = Some c →
  delete_document_embeddings doc u self
  = (Ok PyNone,
     match filter (about doc) (col_records c) with
     | [] => sa
     | _ :: _ =>
         set_client
           (<[h := Chroma.delete_ids c
                     (entry_id <$> filter (about doc) (col_records c))]>
              (client sa)) sa
     end).
Proof.
  intros Hget Hc. unfold delete_document_embeddings.
  rewrite (bindM_step _ _ _ _ _ Hget).
  rewrite (bindM_step _ _ sa sa (Chroma.get_where c "document_id" (MStr doc)))
    by (by rewrite (collection_read_at _ _ _ _ Hc)).
  unfold Chroma.get_where, result_of. simpl. fold (about doc).
  destruct (filter (about doc) (col_records c)) as [|e es]; simpl; [done|].
  unfold bindM, collection_delete. by rewrite Hc.
Qed.

(** C6, as amended.  [delete_document_embeddings] removes from the
    user's collection every entry whose metadata names the document and
    keeps the others; [DocumentEmbedding.delete_by_document] does so for
    the records of that document and user.  Neither raises when there is
    nothing to remove, and a second call in a row removes nothing.  Both
    return [None]: the count removed is logged or printed, not
    returned. *)
Theorem delete_by_document_removes (doc u : string)
    (self sa : VectorService.t) (h : Handle) (c : Collection)
    (db : DocumentEmbedding.Database) :
  _get_collection u self = (Ok h, sa) →
  client sa !! h = Some c →
  NoDup (ids_of c) →
  let outcome := delete_document_embeddings doc u self in
  let stored := DocumentEmbedding.delete_by_document db doc u in
  (outcome.1 = Ok PyNone
   ∧ entries outcome.2 h = filter (λ e, ¬ about doc e) (col_records c)
   ∧ (length (entries outcome.2 h)
      + length (filter (about doc) (col_records c))
      = length (col_records c))%nat
   ∧ delete_document_embeddings doc u outcome.2 = (Ok PyNone, outcome.2))
  ∧ (stored.1 = Ok PyNone
     ∧ stored.2
       = filter (λ d, ¬ (DocumentEmbedding.document_id d = doc
                         ∧ DocumentEmbedding.user_id d = u)) db
     ∧ DocumentEmbedding.delete_by_document stored.2 doc u
       = (Ok PyNone, stored.2)).
Proof.
  intros Hget Hc Hnd outcome stored. subst outcome stored. split.
  - rewrite (delete_document_embeddings_run _ _ _ _ _ _ Hget Hc).
    destruct (get_collection_ok _ _ _ _ Hget) as (Hcache & _ & _).
    assert (Hleft : entries
      (match filter (about doc) (col_records c) with
       | [] => sa
       | _ :: _ =>
           set_client
             (<[h := Chroma.delete_ids c
                       (entry_id <$> filter (about doc) (col_records c))]>
                (client sa)) sa
       end) h = filter (λ e, ¬ about doc e) (col_records c)).
    { destruct (filter (about doc) (col_records c)) as [|e es] eqn:Hm.
      - unfold entries. rewrite Hc. simpl. by rewrite filter_rest_all.
      - unfold entries. simpl. rewrite lookup_insert_eq. simpl.
        change (entry_id e :: list_fmap _ _ entry_id es)
          with (entry_id <$> (e :: es)).
        rewrite <- Hm. by apply filter_out_ids. }
    simpl. rewrite Hleft. repeat split.
    + apply filter_rest_length.
    + set (s1 := match filter (about doc) (col_records c) with
                 | [] => sa | _ :: _ => _ end) in *.
      assert (Hcache1 : collections s1 !! ("user_" ++ u) = Some h)
        by (subst s1; by destruct (filter _ _)).
      assert (∃ c1, client s1 !! h = Some c1
                    ∧ col_records c1 = filter (λ e, ¬ about doc e) (col_records c))
        as (c1 & Hc1 & Hrec1).
      { unfold entries in Hleft. subst s1.
        destruct (filter (about doc) (col_records c)) as [|e es].
        - exists c. rewrite Hc in Hleft. eauto.
        - simpl in *. rewrite lookup_insert_eq in Hleft |- *. eauto. }
      rewrite (delete_document_embeddings_run _ _ _ h s1 c1);
        [|by apply get_collection_cached|done].
      by rewrite Hrec1, filter_rest_none.
  - unfold DocumentEmbedding.delete_by_document, Mongo.delete_many. simpl.
    repeat split. f_equal.
    apply filter_rest_all, filter_rest_none.
Qed.

End Delete.

(** ** Collection statistics *)

Lemma count_documents_dom (metadatas : list Metadata)
    (counts : gmap MetaValue nat) :
  dom (foldl (λ document_counts metadata,
                let doc_id :=
                  default (MStr "unknown") (metadata !! "document_id") in
                <[doc_id := (default 0 (document_counts !! doc_id) + 1)%nat]>
                  document_counts)
             counts metadatas)
  = dom counts
    ∪ list_to_set
        ((λ m : Metadata, default (MStr "unknown") (m !! "document_id"))
           <$> metadatas).
Proof.
  revert counts. induction metadatas as [|m ms IH]; intros counts; simpl.
  - by rewrite (right_id_L ∅ (∪)).
  - rewrite IH, dom_insert_L.
    by rewrite (comm_L (∪) _ (dom counts)), (assoc_L (∪)).
Qed.

Lemma unique_documents_sample (es : list Entry) :
  size (count_documents (entry_metadata <$> es)) = size (documents_of es).
Proof.
  rewrite <- size_dom. unfold count_documents, documents_of.
  rewrite count_documents_dom, dom_empty_L, (left_id_L ∅ (∪)).
  by rewrite <- list_fmap_compose.
Qed.

Section Stats.
Context `{B : Backend}.

(** C9, as amended.  [get_collection_stats] reads the collection at call
    time: the total is the number of entries it holds, and the number of
    unique documents is that of the distinct document ids among its
    first 100 entries, the sample the method fetches.  For a collection
    of at most 100 entries this is the number of distinct document ids
    stored. *)
Theorem get_collection_stats_live (u : string) (self sa : VectorService.t)
    (h : Handle) (c : Collection) :
  _get_collection u self = (Ok h, sa) →
  client sa !! h = Some c →
  ∃ stats,
    get_collection_stats u self = (Ok stats, sa)
    ∧ total_embeddings stats = length (col_records c)
    ∧ unique_documents stats = size (documents_of (take 100 (col_records c)))
    ∧ ((length (col_records c) ≤ 100)%nat →
       unique_documents stats = size (documents_of (col_records c))).
Proof.
  intros Hget Hc. unfold get_collection_stats.
  rewrite (bindM_step _ _ _ _ _ Hget).
  rewrite (bindM_step _ _ sa sa (Chroma.count c))
    by (by rewrite (collection_read_at _ _ _ _ Hc)).
  rewrite (bindM_step _ _ sa sa (Chroma.get_limit c 100))
    by (by rewrite (collection_read_at _ _ _ _ Hc)).
  eexists. split; [reflexivity|]. cbn [total_embeddings unique_documents].
  unfold Chroma.get_limit, result_of. cbn [get_metadatas].
  rewrite unique_documents_sample. repeat split.
  intros Hlen. by rewrite take_ge.
Qed.

End Stats.

(** ** Listing a user's records *)

Section Listing.
Import DocumentEmbedding.

#[local] Instance descending_trans {A} (key : A → Z) :
  Transitive (Mongo.descending key).
Proof. unfold Mongo.descending. intros x y z. lia. Qed.

#[local] Instance descending_total {A} (key : A → Z) :
  Total (Mongo.descending key).
Proof. unfold Mongo.descending. intros x y. lia. Qed.

Lemma get_by_user_run (db : Database) (user : string) (page limit : Z) :
  (1 ≤ page)%Z → (1 ≤ limit)%Z →
  get_by_user db user page limit
  = (take (Z.to_nat limit)
       (drop (Z.to_nat ((page - 1) * limit))
          (merge_sort (Mongo.descending created_at)
             (filter (λ d, user_id d = user) db))),
     length (filter (λ d, user_id d = user) db)).
Proof.
  intros Hpage Hlimit.
  unfold get_by_user, Mongo.skip, Mongo.limit, Mongo.sort, Mongo.find,
    Mongo.count_documents.
  rewrite (proj2 (Z.ltb_ge ((page - 1) * limit) 0)) by nia.
  rewrite (proj2 (Z.eqb_neq limit 0)) by lia.
  replace (0 <? -1)%Z with false by done.
  by rewrite Zabs2Nat.abs_nat_nonneg by lia.
Qed.

(** C8, as amended.  For a page number and a page size of at least 1,
    [get_by_user] returns the total number of the user's records and the
    page: the records of the user by descending [created_at] (not
    [updated_at]), without the [(page - 1) * limit] first ones, cut
    after [limit].  A page beyond the last is empty, and the total is
    still right; of 15 records, page 2 of size 10 holds 5 and page 3
    none. *)
Theorem get_by_user_page (db : Database) (user : string) (page limit : Z) :
  (1 ≤ page)%Z → (1 ≤ limit)%Z →
  let total := length (filter (λ d, user_id d = user) db) in
  let skip := Z.to_nat ((page - 1) * limit) in
  let outcome := get_by_user db user page limit in
  outcome.2 = total
  ∧ outcome.1
    = take (Z.to_nat limit)
        (drop skip (Mongo.sort created_at (-1)
                      (filter (λ d, user_id d = user) db)))
  ∧ Forall (λ d, user_id d = user) outcome.1
  ∧ StronglySorted (Mongo.descending created_at) outcome.1
  ∧ length outcome.1 = (Z.to_nat limit `min` (total - skip))%nat
  ∧ ((total ≤ skip)%nat → outcome.1 = [])
  ∧ (total = 15%nat → limit = 10%Z →
     (page = 2%Z → length outcome.1 = 5%nat)
     ∧ (page = 3%Z → outcome.1 = [])).
Proof.
  intros Hpage Hlimit total skip outcome. subst outcome.
  rewrite get_by_user_run by done. fold total skip. cbn [fst snd].
  set (sorted := merge_sort _ _).
  assert (Hlen : length sorted = total)
    by (subst sorted total; by rewrite merge_sort_Permutation).
  assert (Hsub : take (Z.to_nat limit) (drop skip sorted) `sublist_of` sorted)
    by (etrans; [apply sublist_take|apply sublist_drop]).
  assert (Hsize : length (take (Z.to_nat limit) (drop skip sorted))
                  = (Z.to_nat limit `min` (total - skip))%nat)
    by (by rewrite length_take, length_drop, Hlen).
  split_and!.
  - done.
  - done.
  - eapply Forall_sublist; [done|]. subst sorted.
    rewrite merge_sort_Permutation. apply Forall_forall. intros d Hd.
    by apply list_elem_of_filter in Hd as [Hd _].
  - eapply StronglySorted_sublist; [done|].
    apply StronglySorted_merge_sort; apply _.
  - done.
  - intros Hbeyond. rewrite drop_ge by lia. apply take_nil.
  - intros Htotal ->. split; intros ->.
    + rewrite Hsize. subst skip. lia.
    + rewrite drop_ge; [apply take_nil|]. subst skip. lia.
Qed.

End Listing.

(** ** The store under the calls *)

Section Frame.
Context `{B : Backend} `{U : UuidSource}.










End Frame.

(** ** Storing, then deleting *)

Section RoundTrip.
Context `{B : Backend} `{U : UuidSource}.






End RoundTrip.

(** ** Cosine similarity and dimensions *)



(** ** The records in MongoDB *)

Section Records.
Import DocumentEmbedding.

#[local] Instance ascending_trans {A} (key : A → Z) :
  Transitive (Mongo.ascending key).
Proof. unfold Mongo.ascending. intros x y z. lia. Qed.

#[local] Instance ascending_total {A} (key : A → Z) :
  Total (Mongo.ascending key).
Proof. unfold Mongo.ascending. intros x y. lia. Qed.









End Records.

(** * The statements at concrete inputs *)

Lemma exact_uuids_inj : Inj (=) (=) (uuid4 (UuidSource := Exact.uuids)).
Proof.
  intros n m Heq. simpl in Heq. injection Heq as Heq.
  by apply (inj pretty).
Qed.

Lemma issued_fresh `{U : UuidSource} : issued Scenario.fresh.
Proof.
  intros name c e Hc. unfold Scenario.fresh in Hc. simpl in Hc.
  by rewrite lookup_empty in Hc.
Qed.

Lemma fresh_coherent : coherent Scenario.fresh.
Proof. intros name h Hcache. simpl in Hcache. by rewrite lookup_empty in Hcache. Qed.


Lemma near_duplicates_coherent : coherent Scenario.near_duplicates.
Proof.
  unfold Scenario.near_duplicates, after.
  eapply store_embedding_coherent; [apply surjective_pairing|].
  eapply store_embedding_coherent; [apply surjective_pairing|].
  apply fresh_coherent.
Qed.


(** C2, refuted as stated.  Nothing user ["u"] stored clears the
    threshold [1.5]: at the limit [10] the search returns the empty list,
    at the limits [0] and [-1] it raises the index's error. *)
Lemma search_similar_limit_refused :
  (search_similar [0%float] "u" 10 1.5%float Scenario.near_duplicates).1
  = Ok []
  ∧ (search_similar [0%float] "u" 0 1.5%float Scenario.near_duplicates).1
    = Raise (TypeError "Number of requested results cannot be negative, or zero")
  ∧ (search_similar [0%float] "u" (-1) 1.5%float Scenario.near_duplicates).1
    = Raise (TypeError "Number of requested results cannot be negative, or zero").
Proof. split_and!; vm_compute; reflexivity. Qed.

Lemma search_similar_bounded_witness :
  ∃ r hits self',
    knn (entries Scenario.near_duplicates "user_u") [0%float] 1 = Ok r
    ∧ search_similar [0%float] "u" 1 1.5%float Scenario.near_duplicates
      = (Ok hits, self')
    ∧ (Z.of_nat (length hits) ≤ 1)%Z
    ∧ Forall (clears 1.5%float) hits
    ∧ hits = [].
Proof.
  destruct (search_similar_bounded (B := Exact.backend) [0%float] "u" 1
              1.5%float Scenario.near_duplicates exact_well_formed
              exact_answers near_duplicates_coherent (or_intror eq_refl))
    as (Hbound & _ & Hreturns).
  destruct Hreturns as (r & hits & self' & Hr & Hrun & Hnone);
    [lia|done|vm_compute; repeat constructor|].
  exists r, hits, self'. destruct (Hbound _ _ Hrun) as [Hlen Hclear].
  split_and!; [done..|]. apply Hnone.
  vm_compute in Hr. injection Hr as <-. vm_compute. repeat constructor.
Defined.

(** C3, refuted as stated.  User ["u"] stored the entry ["uuid-0"]
    before ["uuid-1"]; both come back with similarity [1.0], the one
    stored last first. *)
Lemma search_similar_tie_against_insertion :
  ids_of (Scenario.collection_of Scenario.near_duplicates "user_u")
  = ["uuid-0"; "uuid-1"]
  ∧ ∃ hit1 hit2,
      (search_similar [0%float] "u" 10 0.5%float Scenario.near_duplicates).1
      = Ok [hit1; hit2]
      ∧ hit_similarity hit1 = hit_similarity hit2
      ∧ hit_id hit1 = "uuid-1"
      ∧ hit_id hit2 = "uuid-0".
Proof.
  split; [vm_compute; reflexivity|].
  eexists _, _. split; [vm_compute; reflexivity|].
  repeat split; vm_compute; reflexivity.
Qed.

Lemma search_similar_order_witness :
  ∃ r hits self',
    knn (entries Scenario.near_duplicates "user_u") [0%float] 10 = Ok r
    ∧ search_similar [0%float] "u" 10 0.5%float Scenario.near_duplicates
      = (Ok hits, self')
    ∧ hits = filter (clears 0.5%float) (answer_hits r)
    ∧ (hit_distance <$> hits) `sublist_of` qr_distances r
    ∧ StronglySorted by_distance hits
    ∧ StronglySorted by_similarity hits.
Proof.
  eexists _, _, _. split; [vm_compute; reflexivity|].
  split; [vm_compute; reflexivity|].
  eapply (search_similar_order (B := Exact.backend) [0%float] "u" 10
            0.5%float Scenario.near_duplicates).
  - vm_compute. reflexivity.
  - vm_compute. reflexivity.
  - vm_compute. reflexivity.
  - vm_compute. reflexivity.
  - unfold nearest_first. simpl. repeat constructor.
  - intros d1 d2 H1 H2 _. simpl in H1, H2.
    apply elem_of_cons in H1 as [->|H1];
      [|apply list_elem_of_singleton in H1 as ->];
      (apply elem_of_cons in H2 as [->|H2];
       [|apply list_elem_of_singleton in H2 as ->]);
      vm_compute; reflexivity.
Defined.

(** C5, refuted as stated.  On a fresh service a vector of length 2 is
    stored, and its id returned, although no model has dimension 2. *)
Lemma store_embedding_accepts_any_length :
  let outcome :=
    store_embedding "hello" [1%float; 2%float] "doc" "u" None Scenario.fresh in
  outcome.1 = Ok "uuid-0"
  ∧ entry_embedding <$> entries outcome.2 "user_u" = [[1%float; 2%float]]
  ∧ ∀ model,
      EmbeddingService.get_embedding_dimension model
      ≠ length [1%float; 2%float].
Proof.
  split; [vm_compute; reflexivity|]. split; [vm_compute; reflexivity|].
  intros model. unfold EmbeddingService.get_embedding_dimension.
  destruct (String.prefix _ _).
  - repeat case_decide; simpl; lia.
  - destruct (EmbeddingService.local_models !! model) as [d|] eqn:Hd;
      [|simpl; lia].
    unfold EmbeddingService.local_models in Hd.
    apply lookup_insert_Some in Hd as [[_ <-]|[_ Hd]]; [simpl; lia|].
    apply lookup_singleton_Some in Hd as [_ <-]. simpl. lia.
Qed.

Lemma store_embedding_dimension_witness :
  let self := Scenario.near_duplicates in
  let c := Scenario.collection_of self "user_u" in
  let emb := [1%float; 2%float] in
  let outcome := store_embedding "third" emb "doc-c" "u" None self in
  let id := uuid4 (uuid_draws self) in
  (∀ d, col_dimension c = Some d → length emb ≠ d →
        outcome.1 = Raise (InvalidDimensionException (length emb) d)
        ∧ client outcome.2 = client self)
  ∧ (col_dimension c = None ∨ col_dimension c = Some (length emb) →
     id ∉ ids_of c →
     outcome.1 = Ok id
     ∧ entries outcome.2 "user_u"
       = (col_records c ++ [new_entry id "third" emb "doc-c" "u" None])%list
     ∧ (col_dimension <$> client outcome.2 !! "user_u")
       = Some (Some (length emb))).
Proof.
  apply (store_embedding_dimension (B := Exact.backend) (U := Exact.uuids)
           "third" [1%float; 2%float] "doc-c" "u" None
           Scenario.near_duplicates Scenario.near_duplicates "user_u"
           (Scenario.collection_of Scenario.near_duplicates "user_u")).
  - vm_compute. reflexivity.
  - vm_compute. reflexivity.
  - discriminate.
Defined.

Lemma store_embedding_fresh_ids_witness :
  let store := StoreEmbedding "same" [1%float; 2%float] "doc" "u" None in
  let self1 := after store Scenario.fresh in
  let self2 := after store self1 in
  "uuid-0" = uuid4 (uuid_draws Scenario.fresh)
  ∧ "uuid-1" = uuid4 (S (uuid_draws Scenario.fresh))
  ∧ "uuid-0" ≠ "uuid-1"
  ∧ (∃ h, collections self2 !! ("user_" ++ "u") = Some h
          ∧ entries self2 h
            = (entries Scenario.fresh h
               ++ [new_entry "uuid-0" "same" [1%float; 2%float] "doc" "u" None;
                   new_entry "uuid-1" "same" [1%float; 2%float] "doc" "u" None])%list)
  ∧ kept Scenario.fresh self2.
Proof.
  apply (store_embedding_fresh_ids (B := Exact.backend) (U := Exact.uuids)
           "same" [1%float; 2%float] "doc" "u" None Scenario.fresh
           (after (StoreEmbedding "same" [1%float; 2%float] "doc" "u" None)
              Scenario.fresh)).
  - exact exact_uuids_inj.
  - exact issued_fresh.
  - vm_compute. reflexivity.
  - vm_compute. reflexivity.
Defined.

(** C6, refuted as stated.  One of the two entries of user ["u"] is
    removed, and one of the two records, and what comes back is [None],
    not the count 1. *)
Lemma delete_by_document_returns_no_count :
  let self := Scenario.near_duplicates in
  let outcome := delete_document_embeddings "doc-a" "u" self in
  let stored := DocumentEmbedding.delete_by_document Scenario.interleaved "doc-a" "u" in
  (length (entries self "user_u") = 2%nat
   ∧ length (entries outcome.2 "user_u") = 1%nat
   ∧ outcome.1 = Ok PyNone
   ∧ outcome.1 ≠ Ok (PyInt 1))
  ∧ (length Scenario.interleaved = 2%nat
     ∧ length stored.2 = 1%nat
     ∧ stored.1 = Ok PyNone
     ∧ stored.1 ≠ Ok (PyInt 1)).
Proof.
  split; (split_and!; [vm_compute; reflexivity..|]);
    vm_compute; discriminate.
Qed.

Lemma delete_by_document_removes_witness :
  let self := Scenario.near_duplicates in
  let c := Scenario.collection_of self "user_u" in
  let outcome := delete_document_embeddings "doc-a" "u" self in
  let stored := DocumentEmbedding.delete_by_document Scenario.interleaved "doc-a" "u" in
  (outcome.1 = Ok PyNone
   ∧ entries outcome.2 "user_u" = filter (λ e, ¬ about "doc-a" e) (col_records c)
   ∧ (length (entries outcome.2 "user_u")
      + length (filter (about "doc-a") (col_records c))
      = length (col_records c))%nat
   ∧ delete_document_embeddings "doc-a" "u" outcome.2 = (Ok PyNone, outcome.2))
  ∧ (stored.1 = Ok PyNone
     ∧ stored.2
       = filter (λ d, ¬ (DocumentEmbedding.document_id d = "doc-a"
                         ∧ DocumentEmbedding.user_id d = "u"))
           Scenario.interleaved
     ∧ DocumentEmbedding.delete_by_document stored.2 "doc-a" "u"
       = (Ok PyNone, stored.2)).
Proof.
  apply (delete_by_document_removes (B := Exact.backend) "doc-a" "u"
           Scenario.near_duplicates Scenario.near_duplicates "user_u"
           (Scenario.collection_of Scenario.near_duplicates "user_u")
           Scenario.interleaved).
  - vm_compute. reflexivity.
  - vm_compute. reflexivity.
  - apply (bool_decide_unpack _). vm_compute. exact I.
Defined.

(** C8, refuted as stated.  Of two records of user ["u"], the one
    created last comes first although it was updated first: the page is
    not by descending [updated_at]. *)
Lemma get_by_user_not_by_updated_at :
  let page := (DocumentEmbedding.get_by_user Scenario.interleaved "u" 1 20).1 in
  DocumentEmbedding.id <$> page = ["b"; "a"]
  ∧ DocumentEmbedding.updated_at <$> page = [3%Z; 4%Z]
  ∧ ¬ StronglySorted (Mongo.descending DocumentEmbedding.updated_at) page.
Proof.
  split; [vm_compute; reflexivity|]. split; [vm_compute; reflexivity|].
  intros Hsorted.
  apply (StronglySorted_fmap DocumentEmbedding.updated_at _
           (λ x y, (y ≤ x)%Z)) in Hsorted; [|done].
  replace (DocumentEmbedding.updated_at <$> _) with [3%Z; 4%Z] in Hsorted
    by (vm_compute; reflexivity).
  apply StronglySorted_inv in Hsorted as [_ Hfirst].
  apply Forall_cons in Hfirst as [Hfirst _]. lia.
Qed.

Lemma get_by_user_page_witness :
  (DocumentEmbedding.get_by_user Scenario.fifteen "u" 2 10).2 = 15%nat
  ∧ length (DocumentEmbedding.get_by_user Scenario.fifteen "u" 2 10).1 = 5%nat
  ∧ DocumentEmbedding.get_by_user Scenario.fifteen "u" 3 10 = ([], 15%nat).
Proof.
  pose proof (get_by_user_page Scenario.fifteen "u" 2 10
                ltac:(lia) ltac:(lia)) as (Htotal & _ & _ & _ & _ & _ & H15).
  pose proof (get_by_user_page Scenario.fifteen "u" 3 10
                ltac:(lia) ltac:(lia)) as (Htotal' & _ & _ & _ & _ & _ & H15').
  assert (Hcount : length (filter (λ d, DocumentEmbedding.user_id d = "u")
                             Scenario.fifteen) = 15%nat)
    by (vm_compute; reflexivity).
  split_and!.
  - by rewrite Htotal.
  - by apply H15.
  - apply injective_projections; [by apply H15'|by rewrite Htotal'].
Defined.

(** C9, refuted as stated.  A collection holds 101 entries of 101
    documents; the statistics count 101 embeddings and 100 documents. *)
Lemma get_collection_stats_counts_a_sample :
  let self := Scenario.one_document_each 101 in
  let outcome := (get_collection_stats "u" self).1 in
  size (documents_of (entries self "user_u")) = 101%nat
  ∧ Py.map total_embeddings outcome = Ok 101%nat
  ∧ Py.map unique_documents outcome = Ok 100%nat.
Proof. split_and!; vm_compute; reflexivity. Qed.

Lemma get_collection_stats_live_witness :
  let self := Scenario.near_duplicates in
  let c := Scenario.collection_of self "user_u" in
  ∃ stats,
    get_collection_stats "u" self = (Ok stats, self)
    ∧ total_embeddings stats = length (col_records c)
    ∧ unique_documents stats = size (documents_of (take 100 (col_records c)))
    ∧ ((length (col_records c) ≤ 100)%nat →
       unique_documents stats = size (documents_of (col_records c))).
Proof.
  apply (get_collection_stats_live (B := Exact.backend) "u"
           Scenario.near_duplicates Scenario.near_duplicates "user_u"
           (Scenario.collection_of Scenario.near_duplicates "user_u")).
  - vm_compute. reflexivity.
  - vm_compute. reflexivity.
Defined.

(** ** Further statements at concrete inputs *)









